(** * webscraper/clients.py: search clients for two image-search providers

    A shallow embedding of [SearchClient], [GoogleCustomSearchClient] and
    [BingSearchClient].  Python objects are values of the type [value];
    dictionaries ([self.params], keyword arguments, decoded JSON objects,
    result items) are finite maps with string keys; raising an exception is
    the left injection of a sum; the instance attributes and the outgoing
    HTTP traffic are threaded as explicit state.

    Floating-point numbers are not part of [value]: every statement below
    is about arguments and response bodies built from [None], booleans,
    integers, strings, lists, tuples and dictionaries. *)

From stdpp Require Import gmap strings list fin_maps.

Local Open Scope string_scope.
Local Open Scope Z_scope.

(** ** Python values *)

#[local] Set Warnings "-register-all,-clear-no-such-hyp".

Inductive value : Type :=
| PNone
| PBool (b : bool)
| PInt (z : Z)
| PStr (s : string)
| PList (l : list value)
| PTuple (l : list value)
| PDict (d : gmap string value).

(** [type(v).__name__], as it appears in the interpreter's messages. *)
Definition type_name (v : value) : string :=
  match v with
  | PNone => "NoneType"
  | PBool _ => "bool"
  | PInt _ => "int"
  | PStr _ => "str"
  | PList _ => "list"
  | PTuple _ => "tuple"
  | PDict _ => "dict"
  end.

(** Truth value testing ([if v:], [not v]). *)
Definition truthy (v : value) : bool :=
  match v with
  | PNone => false
  | PBool b => b
  | PInt z => negb (z =? 0)
  | PStr s => negb (String.eqb s "")
  | PList l | PTuple l => negb (Nat.eqb (length l) 0)
  | PDict d => negb (Nat.eqb (size d) 0)
  end.

(** ** Exceptions

    A message is kept as the format string of the source together with
    the arguments it is applied to ([%] or [str.format]); nothing is
    rendered.  [kwargs.keys()] is a set-like view of the keys. *)

Inductive fmt_arg : Type :=
| FVal (v : value)
| FKeys (ks : gset string).

Record message : Type := Msg { fmt : string; fmt_args : list fmt_arg }.

Inductive exn : Type :=
| ValueError (m : message)
| TypeError (m : message)
| KeyError (key : string)
| RequestException (m : message)
| JSONDecodeError (m : message).

Definition result (A : Type) : Type := exn + A.

Definition ok {A} (a : A) : result A := inr a.
Definition raise {A} (e : exn) : result A := inl e.

#[export] Instance result_ret : MRet result := λ A a, inr a.
#[export] Instance result_bind : MBind result := λ A B k r,
  match r with
  | inl e => inl e
  | inr a => k a
  end.

(** ** Operations of the interpreter used by the source *)

(** [d.pop(k, dflt)]: the value bound to [k], or [dflt], and the dictionary
    without [k]. *)
Definition pop (k : string) (dflt : value) (d : gmap string value)
  : value * gmap string value :=
  (default dflt (d !! k), delete k d).

(** [v is None]. *)
Definition is_None (v : value) : bool :=
  match v with
  | PNone => true
  | _ => false
  end.

(** Integers and booleans ([bool] is a subclass of [int]) are the values
    that order against an [int]. *)
Definition as_int (v : value) : option Z :=
  match v with
  | PInt z => Some z
  | PBool b => Some (Z.b2z b)
  | _ => None
  end.

Definition unorderable (op : string) (v : value) : exn :=
  TypeError (Msg "%r not supported between instances of %r and 'int'"
                 [FVal (PStr op); FVal (PStr (type_name v))]).

(** [v < n] and [v > n] for an integer attribute [n]. *)
Definition py_lt (v : value) (n : Z) : result bool :=
  match as_int v with
  | Some z => ok (z <? n)
  | None => raise (unorderable "<" v)
  end.

Definition py_gt (v : value) (n : Z) : result bool :=
  match as_int v with
  | Some z => ok (z >? n)
  | None => raise (unorderable ">" v)
  end.

(** [v[k]] for a string key [k]. *)
Definition subscript (v : value) (k : string) : result value :=
  match v with
  | PDict d =>
      match d !! k with
      | Some x => ok x
      | None => raise (KeyError k)
      end
  | PList _ | PTuple _ =>
      raise (TypeError (Msg "%s indices must be integers or slices, not str"
                            [FVal (PStr (type_name v))]))
  | PStr _ => raise (TypeError (Msg "string indices must be integers" []))
  | _ =>
      raise (TypeError (Msg "%r object is not subscriptable"
                            [FVal (PStr (type_name v))]))
  end.

(** The sequence a [for] statement runs over: the elements of a list or
    tuple, the one-character strings of a string, the keys of a
    dictionary (here in the order of [map_to_list]). *)
Definition iterate (v : value) : result (list value) :=
  match v with
  | PList l | PTuple l => ok l
  | PStr s => ok ((λ c, PStr (String c EmptyString)) <$> String.list_ascii_of_string s)
  | PDict d => ok ((λ kv, PStr kv.1) <$> map_to_list d)
  | _ =>
      raise (TypeError (Msg "%r object is not iterable"
                            [FVal (PStr (type_name v))]))
  end.

(** A dictionary display [{k1: v1, ..., kn: vn}], filled left to right. *)
Definition dict_display (l : list (string * value)) : gmap string value :=
  foldl (λ d kv, <[kv.1 := kv.2]> d) ∅ l.

(** [d.update(q=query, **kwargs)]: the call itself is rejected when [kwargs]
    repeats the explicit keyword. *)
Definition update_q (d : gmap string value) (query : value)
    (kwargs : gmap string value) : result (gmap string value) :=
  match kwargs !! "q" with
  | Some _ =>
      raise (TypeError (Msg "update() got multiple values for keyword argument %r"
                            [FVal (PStr "q")]))
  | None => ok (kwargs ∪ <["q" := query]> d)
  end.

(** The loop [items = []; for item in seq: items.append(body(item))]. *)
Fixpoint for_append (body : value → result value) (seq : list value)
    (items : list value) : result (list value) :=
  match seq with
  | [] => ok items
  | item :: rest => d ← body item; for_append body rest (items ++ [d])
  end.

(** ** The client object *)

Inductive client_class : Type := GoogleCustomSearch | BingSearch.

Record SearchClient : Type := {
  cls : client_class;
  headers : gmap string value;
  params : gmap string value;
  endpoint : string;
  max_results_per_q : Z;
  min_index : Z;
  response : value
}.

(** [SearchClient.__init__] *)
Definition SearchClient__init__ (c : client_class) (endpoint : string)
    (max_results min_index : Z) (headers params : gmap string value)
  : SearchClient :=
  {| cls := c; headers := headers; params := params; endpoint := endpoint;
     max_results_per_q := max_results; min_index := min_index;
     response := PNone |}.

Definition set_params (self : SearchClient) (p : gmap string value) : SearchClient :=
  {| cls := cls self; headers := headers self; params := p;
     endpoint := endpoint self; max_results_per_q := max_results_per_q self;
     min_index := min_index self; response := response self |}.

Definition set_response (self : SearchClient) (r : value) : SearchClient :=
  {| cls := cls self; headers := headers self; params := params self;
     endpoint := endpoint self; max_results_per_q := max_results_per_q self;
     min_index := min_index self; response := r |}.

(** ** Google Custom Search Engine client *)

Module GoogleCustomSearchClient.

Definition __init__ (cse_id api_key : value) : result SearchClient :=
  if negb (truthy api_key) then
    raise (ValueError (Msg "Expected an API Key" []))
  else if negb (truthy cse_id) then
    raise (ValueError (Msg "Expected a Custom Search Engine ID" []))
  else
    ok (SearchClient__init__ GoogleCustomSearch
          "https://www.googleapis.com/customsearch/v1" 10 1
          (dict_display [])
          (dict_display [("key", api_key); ("cx", cse_id);
                         ("searchType", PStr "image")])).

Definition _check_value (self : SearchClient) (kwargs : gmap string value)
  : result unit :=
  let '(start, kwargs) := pop "start" (PInt 1) kwargs in
  let '(num, kwargs) := pop "num" PNone kwargs in
  if truthy (PDict kwargs) then
    raise (TypeError (Msg "%r are invalid keyword arguments."
                          [FKeys (dom kwargs)]))
  else if is_None num then
    raise (ValueError (Msg "Missing number of results to return." []))
  else
    below ← py_lt start (min_index self);
    if below : bool then
      raise (ValueError
               (Msg "Invalid start index value. Valid values start at {}."
                    [FVal (PInt (min_index self))]))
    else
      above ← py_gt num (max_results_per_q self);
      out ← (if above : bool then ok true else py_lt num (min_index self));
      if out : bool then
        raise (ValueError
                 (Msg "Invalid num value. Number of search results to return must be between {} and {}, inclusive."
                      [FVal (PInt (min_index self));
                       FVal (PInt (max_results_per_q self))]))
      else ok ().

Definition item_dict (item : value) : result value :=
  type ← subscript item "mime";
  width ← (image ← subscript item "image"; subscript image "width");
  height ← (image ← subscript item "image"; subscript image "height");
  size ← (image ← subscript item "image"; subscript image "byteSize");
  url ← subscript item "link";
  hostPage ← (image ← subscript item "image"; subscript image "contextLink");
  ok (PDict (dict_display [("type", type); ("width", width);
                           ("height", height); ("size", size);
                           ("url", url); ("hostPage", hostPage)])).

Definition _parse_response (self : SearchClient) : result value :=
  entries ← subscript (response self) "items";
  seq ← iterate entries;
  items ← for_append item_dict seq [];
  ok (PList items).

End GoogleCustomSearchClient.

(** ** Bing Image Search client *)

Module BingSearchClient.

Definition __init__ (api_key : value) : result SearchClient :=
  if negb (truthy api_key) then
    raise (ValueError (Msg "Expected an API Key" []))
  else
    ok (SearchClient__init__ BingSearch
          "https://api.cognitive.microsoft.com/bing/v7.0/images/search" 150 1
          (dict_display [("Ocp-Apim-Subscription-Key", api_key)])
          (dict_display [])).

Definition _check_value (self : SearchClient) (kwargs : gmap string value)
  : result unit :=
  let '(offset, kwargs) := pop "offset" (PInt 0) kwargs in
  let '(count, kwargs) := pop "count" PNone kwargs in
  if truthy (PDict kwargs) then
    raise (TypeError (Msg "%r are invalid keyword arguments."
                          [FKeys (dom kwargs)]))
  else if is_None count then
    raise (ValueError (Msg "Missing number of results to return." []))
  else
    below ← py_lt offset (min_index self - 1);
    if below : bool then
      raise (ValueError
               (Msg "Invalid offset index value. Valid values start at {}."
                    [FVal (PInt (min_index self - 1))]))
    else
      above ← py_gt count (max_results_per_q self);
      out ← (if above : bool then ok true else py_lt count (min_index self));
      if out : bool then
        raise (ValueError
                 (Msg "Invalid count value. Number of search results to return must be between {} and {}, inclusive."
                      [FVal (PInt (min_index self));
                       FVal (PInt (max_results_per_q self))]))
      else ok ().

Definition item_dict (item : value) : result value :=
  type ← subscript item "encodingFormat";
  width ← subscript item "width";
  height ← subscript item "height";
  size ← subscript item "contentSize";
  url ← subscript item "contentUrl";
  hostPage ← subscript item "hostPageDisplayUrl";
  ok (PDict (dict_display [("type", type); ("width", width);
                           ("height", height); ("size", size);
                           ("url", url); ("hostPage", hostPage)])).

Definition _parse_response (self : SearchClient) : result value :=
  entries ← subscript (response self) "value";
  seq ← iterate entries;
  items ← for_append item_dict seq [];
  nextOffset ← subscript (response self) "nextOffset";
  totalEstimatedMatches ← subscript (response self) "totalEstimatedMatches";
  ok (PTuple [PList items; nextOffset; totalEstimatedMatches]).

End BingSearchClient.

(** ** The shared [search] method *)

(** Method dispatch on the class of the instance. *)
Definition _check_value (self : SearchClient) (kwargs : gmap string value)
  : result unit :=
  match cls self with
  | GoogleCustomSearch => GoogleCustomSearchClient._check_value self kwargs
  | BingSearch => BingSearchClient._check_value self kwargs
  end.

Definition _parse_response (self : SearchClient) : result value :=
  match cls self with
  | GoogleCustomSearch => GoogleCustomSearchClient._parse_response self
  | BingSearch => BingSearchClient._parse_response self
  end.

(** One [requests.get(url, headers=..., params=...)]: the dictionaries are
    recorded as they are at the time of the call. *)
Record request : Type := {
  url : string;
  req_headers : gmap string value;
  req_params : gmap string value
}.

(** The state a method call runs in: the instance, and the requests issued
    so far (oldest first). *)
Definition state : Type := SearchClient * list request.

Definition method (A : Type) : Type := state → result A * state.

#[export] Instance method_ret : MRet method := λ A a st, (ok a, st).
#[export] Instance method_bind : MBind method := λ A B k m st,
  match m st with
  | (inl e, st') => (inl e, st')
  | (inr a, st') => k a st'
  end.

Definition throw {A} (e : exn) : method A := λ st, (raise e, st).
Definition lift {A} (r : result A) : method A := λ st, (r, st).
Definition get_self : method SearchClient := λ st, (ok st.1, st).
Definition assign_params (p : gmap string value) : method unit :=
  λ st, (ok (), (set_params st.1 p, st.2)).
Definition assign_response (r : value) : method unit :=
  λ st, (ok (), (set_response st.1 r, st.2)).

Section Search.

(** What [requests.get(...).json()] evaluates to, given the requests
    issued before and the present one: the decoded body, or the
    exception of the transport or of the JSON decoder. *)
Variable http_json : list request → request → result value.

Definition requests_get_json (u : string) (h p : gmap string value)
  : method value :=
  λ st,
    let req := {| url := u; req_headers := h; req_params := p |} in
    (http_json st.2 req, (st.1, (st.2 ++ [req])%list)).

Definition search (query : value) (kwargs : gmap string value)
  : method value :=
  if negb (truthy query) then
    throw (ValueError (Msg "Expected a query" []))
  else
    self ← get_self;
    lift (_check_value self kwargs);;
    self ← get_self;
    p ← lift (update_q (params self) query kwargs);
    assign_params p;;
    self ← get_self;
    body ← requests_get_json (endpoint self) (headers self) (params self);
    assign_response body;;
    self ← get_self;
    lift (_parse_response self).

End Search.

(** ** Vocabulary of the statements *)

(** [configured_as c0 self]: [self] has the class and the configuration
    attributes of [c0]; [params] and [response], which [search] assigns,
    are free. *)
Definition configured_as (c0 self : SearchClient) : Prop :=
  cls self = cls c0 ∧ headers self = headers c0 ∧ endpoint self = endpoint c0 ∧
  max_results_per_q self = max_results_per_q c0 ∧ min_index self = min_index c0.

(** An instance of a class: built by its constructor, whatever [search]
    has assigned since. *)
Definition GoogleInstance (self : SearchClient) : Prop :=
  ∃ cse_id api_key c0,
    GoogleCustomSearchClient.__init__ cse_id api_key = ok c0 ∧ configured_as c0 self.

Definition BingInstance (self : SearchClient) : Prop :=
  ∃ api_key c0,
    BingSearchClient.__init__ api_key = ok c0 ∧ configured_as c0 self.

(** A freshly constructed instance. *)
Definition fresh (self : SearchClient) : Prop :=
  (∃ cse_id api_key, GoogleCustomSearchClient.__init__ cse_id api_key = ok self) ∨
  (∃ api_key, BingSearchClient.__init__ api_key = ok self).

(** The keyword arguments a class pops in [_check_value], and the one of
    them that has a default. *)
Definition recognized (c : client_class) : gset string :=
  match c with
  | GoogleCustomSearch => {["start"; "num"]}
  | BingSearch => {["offset"; "count"]}
  end.

Definition pagination_key (c : client_class) : string :=
  match c with
  | GoogleCustomSearch => "start"
  | BingSearch => "offset"
  end.

(** [field v k] is [v[k]] where [v] is a dictionary that has the key [k]. *)
Definition field (v : value) (k : string) : value :=
  match subscript v k with
  | inr x => x
  | inl _ => PNone
  end.

Definition is_dict (v : value) : Prop := ∃ d, v = PDict d.

Definition has_field (v : value) (k : string) : Prop :=
  ∃ d, v = PDict d ∧ is_Some (d !! k).

Definition lacks_field (v : value) (k : string) : Prop :=
  ∃ d, v = PDict d ∧ d !! k = None.

(** The [KeyError] of one of the keys [names]. *)
Definition missing_key (names : list string) (err : exn) : Prop :=
  ∃ k, err = KeyError k ∧ k ∈ names.

(** *** Custom Search entries *)

Definition google_fields : list string := ["mime"; "image"; "link"].
Definition google_image_fields : list string :=
  ["width"; "height"; "byteSize"; "contextLink"].

(** An entry carrying every field [_parse_response] reads. *)
Definition google_entry (e : value) : Prop :=
  Forall (has_field e) google_fields ∧
  Forall (has_field (field e "image")) google_image_fields.

(** An object that lacks one of them. *)
Definition google_lacks (e : value) : Prop :=
  Exists (lacks_field e) google_fields ∨
  Exists (lacks_field (field e "image")) google_image_fields.

(** An object whose [image], when present, is an object. *)
Definition google_shaped (e : value) : Prop :=
  is_dict e ∧ (has_field e "image" → is_dict (field e "image")).

(** The normalized item of an entry. *)
Definition google_item (e : value) : value :=
  PDict (dict_display
           [("type", field e "mime");
            ("width", field (field e "image") "width");
            ("height", field (field e "image") "height");
            ("size", field (field e "image") "byteSize");
            ("url", field e "link");
            ("hostPage", field (field e "image") "contextLink")]).

(** *** Web Image Search entries *)

Definition bing_fields : list string :=
  ["encodingFormat"; "width"; "height"; "contentSize"; "contentUrl";
   "hostPageDisplayUrl"].

Definition bing_entry (e : value) : Prop := Forall (has_field e) bing_fields.

Definition bing_lacks (e : value) : Prop := Exists (lacks_field e) bing_fields.

Definition bing_item (e : value) : value :=
  PDict (dict_display
           [("type", field e "encodingFormat");
            ("width", field e "width");
            ("height", field e "height");
            ("size", field e "contentSize");
            ("url", field e "contentUrl");
            ("hostPage", field e "hostPageDisplayUrl")]).

(** *** Per class *)

(** The key of the array of entries, the fields read from an entry, an
    entry that lacks one of them, and an entry all of whose subscripted
    parts are objects. *)
Definition entries_key (c : client_class) : string :=
  match c with
  | GoogleCustomSearch => "items"
  | BingSearch => "value"
  end.

Definition expected_fields (c : client_class) : list string :=
  match c with
  | GoogleCustomSearch => google_fields ++ google_image_fields
  | BingSearch => bing_fields
  end.

Definition lacks_expected (c : client_class) (e : value) : Prop :=
  match c with
  | GoogleCustomSearch => google_lacks e
  | BingSearch => bing_lacks e
  end.

Definition object_shaped (c : client_class) (e : value) : Prop :=
  match c with
  | GoogleCustomSearch => google_shaped e
  | BingSearch => is_dict e
  end.

(** *** Requests *)

(** The parameters and the request of a call that passes validation. *)
Definition merged (self : SearchClient) (query : value)
    (kwargs : gmap string value) : gmap string value :=
  kwargs ∪ <["q" := query]> (params self).

Definition request_of (self : SearchClient) (query : value)
    (kwargs : gmap string value) : request :=
  {| url := endpoint self; req_headers := headers self;
     req_params := merged self query kwargs |}.

(** ** Concrete instances, bodies and transports *)

(** [GoogleCustomSearchClient("cse", "secret")] and
    [BingSearchClient("secret")]. *)
Definition example_google : SearchClient :=
  SearchClient__init__ GoogleCustomSearch
    "https://www.googleapis.com/customsearch/v1" 10 1
    ∅
    (dict_display [("key", PStr "secret"); ("cx", PStr "cse");
                   ("searchType", PStr "image")]).

Definition example_bing : SearchClient :=
  SearchClient__init__ BingSearch
    "https://api.cognitive.microsoft.com/bing/v7.0/images/search" 150 1
    (dict_display [("Ocp-Apim-Subscription-Key", PStr "secret")])
    ∅.

Definition example_google_entry : value :=
  PDict (dict_display
           [("mime", PStr "image/jpeg");
            ("image", PDict (dict_display
                               [("width", PInt 100); ("height", PInt 50);
                                ("byteSize", PInt 2048);
                                ("contextLink", PStr "http://host")]));
            ("link", PStr "http://img")]).

Definition example_google_body : gmap string value :=
  dict_display [("items", PList [example_google_entry])].

Definition example_bing_entry : value :=
  PDict (dict_display
           [("encodingFormat", PStr "png"); ("width", PInt 10);
            ("height", PInt 20); ("contentSize", PInt 500);
            ("contentUrl", PStr "u"); ("hostPageDisplayUrl", PStr "h")]).

Definition example_bing_body : gmap string value :=
  dict_display [("value", PList [example_bing_entry]);
                ("nextOffset", PInt 5); ("totalEstimatedMatches", PInt 999)].

(** An entry without [image]. *)
Definition example_no_image : value :=
  PDict (dict_display [("mime", PStr "image/jpeg"); ("link", PStr "http://img")]).

(** A transport that answers every request with a body without entries,
    and one on which every request fails. *)
Definition empty_answer : list request → request → result value :=
  λ _ _, ok (PDict (dict_display [("items", PList [])])).

Definition unreachable : list request → request → result value :=
  λ _ _, raise (RequestException (Msg "connection refused" [])).

(** ** Accepted arguments and sequences of calls *)

(** The keyword argument that is required. *)
Definition count_key (c : client_class) : string :=
  match c with
  | GoogleCustomSearch => "num"
  | BingSearch => "count"
  end.







(** The body of the loop of the class of [self]. *)
Definition item_dict (c : client_class) : value → result value :=
  match c with
  | GoogleCustomSearch => GoogleCustomSearchClient.item_dict
  | BingSearch => BingSearchClient.item_dict
  end.

(** The keys the loop body of a class subscripts an entry with. *)
Definition entry_keys (c : client_class) : list string :=
  match c with
  | GoogleCustomSearch => google_fields
  | BingSearch => bing_fields
  end.

(** An entry with one more key (or one key rewritten), when it is an
    object. *)
Definition with_key (k : string) (v : value) (e : value) : value :=
  match e with
  | PDict d => PDict (<[k := v]> d)
  | _ => e
  end.

(** Zero or more calls of [search] on one instance, with any arguments. *)
Inductive calls (http_json : list request → request → result value)
  : state → state → Prop :=
| calls_refl (st : state) : calls http_json st st
| calls_search (st st' st'' : state) (query : value)
    (kwargs : gmap string value) (r : result value) :
    calls http_json st st' →
    search http_json query kwargs st' = (r, st'') →
    calls http_json st st''.

(** Two calls on [example_google], one call on [example_bing], and the
    states they leave. *)
Definition example_start_11 : gmap string value :=
  dict_display [("start", PInt 11); ("num", PInt 5)].

Definition example_num_3 : gmap string value := dict_display [("num", PInt 3)].

Definition example_after_cats : state :=
  (search empty_answer (PStr "cats") example_start_11 (example_google, [])).2.

Definition example_after_dogs : state :=
  (search empty_answer (PStr "dogs") example_num_3 example_after_cats).2.

Definition example_count_10 : gmap string value :=
  dict_display [("count", PInt 10)].

Definition example_bing_after : state :=
  (search empty_answer (PStr "cats") example_count_10 (example_bing, [])).2.

(** * Properties *)

(** ** Dictionaries and truth values *)

Lemma truthy_dict_false (d : gmap string value) :
  truthy (PDict d) = false ↔ d = ∅.
Proof.
  simpl. rewrite negb_false_iff, Nat.eqb_eq. apply map_size_empty_iff.
Qed.

Lemma truthy_dict_true (d : gmap string value) :
  truthy (PDict d) = true ↔ d ≠ ∅.
Proof.
  rewrite <- truthy_dict_false. destruct (truthy (PDict d)); naive_solver.
Qed.

Lemma popped_empty (a b : string) (d : gmap string value) :
  dom d ⊆ {[a; b]} → delete b (delete a d) = ∅.
Proof.
  intros Hdom. apply map_empty. intros k.
  destruct (decide (k = b)) as [->|Hb]; [apply lookup_delete_eq|].
  rewrite lookup_delete_ne by done.
  destruct (decide (k = a)) as [->|Ha]; [apply lookup_delete_eq|].
  rewrite lookup_delete_ne by done.
  apply not_elem_of_dom. set_solver.
Qed.

Lemma popped_nonempty (a b k : string) (d : gmap string value) :
  k ∈ dom d → k ≠ a → k ≠ b → delete b (delete a d) ≠ ∅.
Proof.
  intros [v Hv]%elem_of_dom Ha Hb Hempty.
  assert (delete b (delete a d) !! k = Some v) as Hk
    by (by rewrite !lookup_delete_ne).
  rewrite Hempty, lookup_empty in Hk. done.
Qed.

Lemma popped_dom (a b : string) (d : gmap string value) :
  dom (delete b (delete a d)) = dom d ∖ {[a; b]}.
Proof. rewrite !dom_delete_L. set_solver. Qed.

Lemma subscript_dict (d : gmap string value) (k : string) :
  subscript (PDict d) k
    = match d !! k with Some x => ok x | None => raise (KeyError k) end.
Proof. done. Qed.

Lemma subscript_has_field (v : value) (k : string) :
  has_field v k → subscript v k = ok (field v k).
Proof.
  intros (d & -> & [x Hx]). unfold field. simpl. by rewrite Hx.
Qed.

Lemma lacks_is_dict (e : value) (k : string) : lacks_field e k → is_dict e.
Proof. intros (d & -> & _). by exists d. Qed.

Lemma field_is_dict (e : value) (k : string) : is_dict (field e k) → is_dict e.
Proof.
  intros [d Hd]. unfold field in Hd. destruct e; simpl in Hd; try done.
  by eexists.
Qed.

(** ** Instances *)

Lemma google_instance_config (self : SearchClient) :
  GoogleInstance self →
  cls self = GoogleCustomSearch ∧ max_results_per_q self = 10 ∧ min_index self = 1.
Proof.
  intros (cse_id & api_key & c0 & Hinit & Hcls & _ & _ & Hmax & Hmin).
  unfold GoogleCustomSearchClient.__init__ in Hinit.
  destruct (negb (truthy api_key)); [done|].
  destruct (negb (truthy cse_id)); [done|].
  injection Hinit as <-. done.
Qed.

Lemma bing_instance_config (self : SearchClient) :
  BingInstance self →
  cls self = BingSearch ∧ max_results_per_q self = 150 ∧ min_index self = 1.
Proof.
  intros (api_key & c0 & Hinit & Hcls & _ & _ & Hmax & Hmin).
  unfold BingSearchClient.__init__ in Hinit.
  destruct (negb (truthy api_key)); [done|].
  injection Hinit as <-. done.
Qed.

Lemma configured_as_refl (self : SearchClient) : configured_as self self.
Proof. by repeat split. Qed.

Lemma example_google_instance : GoogleInstance example_google.
Proof.
  exists (PStr "cse"), (PStr "secret"), example_google.
  split; [reflexivity|apply configured_as_refl].
Qed.

Lemma example_bing_instance : BingInstance example_bing.
Proof.
  exists (PStr "secret"), example_bing.
  split; [reflexivity|apply configured_as_refl].
Qed.

Lemma fresh_params (self : SearchClient) :
  fresh self → params self !! pagination_key (cls self) = None.
Proof.
  intros [(cse_id & api_key & Hinit)|(api_key & Hinit)].
  - unfold GoogleCustomSearchClient.__init__ in Hinit.
    destruct (negb (truthy api_key)); [done|].
    destruct (negb (truthy cse_id)); [done|].
    injection Hinit as <-. done.
  - unfold BingSearchClient.__init__ in Hinit.
    destruct (negb (truthy api_key)); [done|].
    injection Hinit as <-. done.
Qed.

(** ** Validation of the keyword arguments *)

Ltac unfold_check :=
  unfold _check_value, GoogleCustomSearchClient._check_value,
    BingSearchClient._check_value, pop;
  cbv beta iota zeta.

Ltac known_keys Hdom :=
  unfold_check;
  rewrite (proj2 (truthy_dict_false _) (popped_empty _ _ _ Hdom));
  rewrite (lookup_delete_ne _ _ _) by done.

Lemma check_value_unknown_key (self : SearchClient) (kwargs : gmap string value)
    (k : string) :
  k ∈ dom kwargs → k ∉ recognized (cls self) →
  _check_value self kwargs
    = raise (TypeError (Msg "%r are invalid keyword arguments."
                            [FKeys (dom kwargs ∖ recognized (cls self))])).
Proof.
  intros Hk Hunk. unfold_check.
  destruct (cls self); unfold recognized in *; cbv beta iota;
    (rewrite (proj2 (truthy_dict_true _));
     [by rewrite popped_dom|apply (popped_nonempty _ _ k); set_solver]).
Qed.

(** Keyword arguments that pass [_check_value] are among the recognized
    ones, so none of them is [q]. *)
Lemma check_value_ok_dom (self : SearchClient) (kwargs : gmap string value) :
  _check_value self kwargs = ok () → dom kwargs ⊆ recognized (cls self).
Proof.
  intros Hok k Hk. destruct (decide (k ∈ recognized (cls self))) as [|Hunk]; [done|].
  rewrite (check_value_unknown_key self kwargs k Hk Hunk) in Hok. done.
Qed.

Lemma check_value_ok_update (self : SearchClient) (kwargs d : gmap string value)
    (query : value) :
  _check_value self kwargs = ok () →
  update_q d query kwargs = ok (kwargs ∪ <["q" := query]> d).
Proof.
  intros Hdom%check_value_ok_dom. unfold update_q.
  assert (kwargs !! "q" = None) as ->; [|done].
  apply not_elem_of_dom. intros Hq%Hdom.
  destruct (cls self); set_solver.
Qed.

(** C6. For both classes, when the keyword arguments hold a key other
    than the recognized ones ([start], [num] for Custom Search; [offset],
    [count] for Web Image Search), [_check_value] raises the [TypeError]
    whose message is formatted with exactly the unrecognized keys. *)
Theorem check_value_rejects_unknown_keys (self : SearchClient)
    (kwargs : gmap string value) :
  (∃ k, k ∈ dom kwargs ∧ k ∉ recognized (cls self)) →
  _check_value self kwargs
    = raise (TypeError (Msg "%r are invalid keyword arguments."
                            [FKeys (dom kwargs ∖ recognized (cls self))])).
Proof. intros (k & Hk & Hunk). by apply (check_value_unknown_key _ _ k). Qed.

(** C1. Custom Search, keyword arguments among [start] and [num]:
    [_check_value] raises [ValueError] when [num] is absent; it raises when
    [num] is an integer outside 1..10 (a [ValueError] when [start] is absent
    or an integer); it raises [ValueError] when [start] is an integer below
    1; and it returns when [num] is in 1..10 and [start] is absent or an
    integer from 1 on. *)
Theorem google_check_value (self : SearchClient) (kwargs : gmap string value) :
  GoogleInstance self →
  dom kwargs ⊆ {["start"; "num"]} →
  (kwargs !! "num" = None →
     _check_value self kwargs
       = raise (ValueError (Msg "Missing number of results to return." []))) ∧
  (∀ n, kwargs !! "num" = Some (PInt n) → n < 1 ∨ 10 < n →
     ∃ err, _check_value self kwargs = raise err ∧
       (kwargs !! "start" = None ∨ (∃ s, kwargs !! "start" = Some (PInt s)) →
        ∃ m, err = ValueError m)) ∧
  (∀ s, kwargs !! "start" = Some (PInt s) → s < 1 →
     ∃ m, _check_value self kwargs = raise (ValueError m)) ∧
  (∀ n, kwargs !! "num" = Some (PInt n) → 1 ≤ n ≤ 10 →
     kwargs !! "start" = None ∨ (∃ s, kwargs !! "start" = Some (PInt s) ∧ 1 ≤ s) →
     _check_value self kwargs = ok ()).
Proof.
  intros (Hcls & Hmax & Hmin)%google_instance_config Hdom.
  unfold _check_value. rewrite Hcls.
  repeat split.
  - intros Hnum. known_keys Hdom. rewrite Hnum. done.
  - intros n Hnum Hout. known_keys Hdom. rewrite Hnum, Hmax, Hmin.
    cbn [is_None].
    destruct (py_lt (default (PInt 1) (kwargs !! "start")) 1)
      as [err|[]] eqn:Hlt; simpl; [| |].
    + exists err. split; [done|].
      intros [Hs|[s Hs]]; rewrite Hs in Hlt; done.
    + eauto.
    + destruct (n >? 10) eqn:Hgt; simpl; [eauto|].
      destruct (n <? 1) eqn:Hlow; simpl; [eauto|]. lia.
  - intros s Hstart Hlow. known_keys Hdom. rewrite Hstart, Hmin.
    destruct (is_None _); [eauto|]. simpl.
    destruct (s <? 1) eqn:Hlt; simpl; [eauto|]. lia.
  - intros n Hnum Hin Hstart. known_keys Hdom. rewrite Hnum, Hmax, Hmin.
    destruct Hstart as [->|(s & -> & Hs)]; simpl.
    + destruct (n >? 10) eqn:Hgt; simpl; [lia|].
      destruct (n <? 1) eqn:Hlt; simpl; [lia|]. done.
    + destruct (s <? 1) eqn:Hs'; simpl; [lia|].
      destruct (n >? 10) eqn:Hgt; simpl; [lia|].
      destruct (n <? 1) eqn:Hlt; simpl; [lia|]. done.
Qed.

(** C2. Web Image Search, keyword arguments among [offset] and [count]:
    [_check_value] raises [ValueError] when [count] is absent; it raises
    when [count] is an integer outside 1..150 (a [ValueError] when [offset]
    is absent or an integer); it raises [ValueError] when [offset] is an
    integer below 0; and it returns when [count] is in 1..150 and [offset]
    is absent or an integer from 0 on. *)
Theorem bing_check_value (self : SearchClient) (kwargs : gmap string value) :
  BingInstance self →
  dom kwargs ⊆ {["offset"; "count"]} →
  (kwargs !! "count" = None →
     _check_value self kwargs
       = raise (ValueError (Msg "Missing number of results to return." []))) ∧
  (∀ n, kwargs !! "count" = Some (PInt n) → n < 1 ∨ 150 < n →
     ∃ err, _check_value self kwargs = raise err ∧
       (kwargs !! "offset" = None ∨ (∃ s, kwargs !! "offset" = Some (PInt s)) →
        ∃ m, err = ValueError m)) ∧
  (∀ s, kwargs !! "offset" = Some (PInt s) → s < 0 →
     ∃ m, _check_value self kwargs = raise (ValueError m)) ∧
  (∀ n, kwargs !! "count" = Some (PInt n) → 1 ≤ n ≤ 150 →
     kwargs !! "offset" = None ∨ (∃ s, kwargs !! "offset" = Some (PInt s) ∧ 0 ≤ s) →
     _check_value self kwargs = ok ()).
Proof.
  intros (Hcls & Hmax & Hmin)%bing_instance_config Hdom.
  unfold _check_value. rewrite Hcls.
  repeat split.
  - intros Hcount. known_keys Hdom. rewrite Hcount. done.
  - intros n Hcount Hout. known_keys Hdom. rewrite Hcount, Hmax, Hmin.
    change (1 - 1) with 0. cbn [is_None].
    destruct (py_lt (default (PInt 0) (kwargs !! "offset")) 0)
      as [err|[]] eqn:Hlt; simpl; [| |].
    + exists err. split; [done|].
      intros [Hs|[s Hs]]; rewrite Hs in Hlt; done.
    + eauto.
    + destruct (n >? 150) eqn:Hgt; simpl; [eauto|].
      destruct (n <? 1) eqn:Hlow; simpl; [eauto|]. lia.
  - intros s Hoffset Hlow. known_keys Hdom. rewrite Hoffset, Hmin.
    change (1 - 1) with 0.
    destruct (is_None _); [eauto|]. simpl.
    destruct (s <? 0) eqn:Hlt; simpl; [eauto|]. lia.
  - intros n Hcount Hin Hoffset. known_keys Hdom. rewrite Hcount, Hmax, Hmin.
    change (1 - 1) with 0.
    destruct Hoffset as [->|(s & -> & Hs)]; simpl.
    + destruct (n >? 150) eqn:Hgt; simpl; [lia|].
      destruct (n <? 1) eqn:Hlt; simpl; [lia|]. done.
    + destruct (s <? 0) eqn:Hs'; simpl; [lia|].
      destruct (n >? 150) eqn:Hgt; simpl; [lia|].
      destruct (n <? 1) eqn:Hlt; simpl; [lia|]. done.
Qed.

(** Evaluations on the calls named in the description of the API. *)
Example google_num_11 :
  ∃ m, _check_value example_google (dict_display [("num", PInt 11)])
       = raise (ValueError m).
Proof. eexists. vm_compute. reflexivity. Qed.

Example google_start_0 :
  ∃ m, _check_value example_google (dict_display [("start", PInt 0); ("num", PInt 5)])
       = raise (ValueError m).
Proof. eexists. vm_compute. reflexivity. Qed.

Example bing_count_200 :
  ∃ m, _check_value example_bing (dict_display [("count", PInt 200)])
       = raise (ValueError m).
Proof. eexists. vm_compute. reflexivity. Qed.

Example bing_offset_minus_1 :
  ∃ m, _check_value example_bing (dict_display [("offset", PInt (-1)); ("count", PInt 10)])
       = raise (ValueError m).
Proof. eexists. vm_compute. reflexivity. Qed.

(** An argument that does not order against an integer is rejected by the
    comparison itself. *)
Example google_start_str :
  ∃ m, _check_value example_google (dict_display [("start", PStr "2"); ("num", PInt 5)])
       = raise (TypeError m).
Proof. eexists. vm_compute. reflexivity. Qed.

(** ** Mapping a response body to items *)

Lemma for_append_ok (body : value → result value) (f : value → value)
    (seq items : list value) :
  Forall (λ e, body e = ok (f e)) seq →
  for_append body seq items = ok (items ++ (f <$> seq))%list.
Proof.
  intros Hall. revert items.
  induction Hall as [|e seq He _ IH]; intros items; simpl.
  - by rewrite app_nil_r.
  - rewrite He. simpl. rewrite IH, <- app_assoc. done.
Qed.

(** The loop stops at the first entry whose body raises. *)
Lemma for_append_raise (body : value → result value) (P : exn → Prop)
    (seq items : list value) :
  Forall (λ e, (∃ x, body e = ok x) ∨ (∃ err, body e = raise err ∧ P err)) seq →
  Exists (λ e, ∃ err, body e = raise err) seq →
  ∃ err, for_append body seq items = raise err ∧ P err.
Proof.
  intros Hall. revert items.
  induction Hall as [|e seq He _ IH]; intros items Hex.
  - by apply Exists_nil in Hex.
  - simpl. destruct He as [[x Hx]|(err & Herr & HP)].
    + rewrite Hx. simpl. apply IH.
      apply Exists_cons in Hex as [[err Herr]|Hex]; [|done].
      unfold ok, raise in *. congruence.
    + rewrite Herr. simpl. eauto.
Qed.

Lemma for_append_fail (body : value → result value) (seq items : list value) :
  Exists (λ e, ∃ err, body e = raise err) seq →
  ∃ err, for_append body seq items = raise err.
Proof.
  intros Hex.
  destruct (for_append_raise body (λ _, True) seq items) as (err & Herr & _);
    [|done|eauto].
  apply Forall_forall. intros e _. destruct (body e) as [err|x]; eauto.
Qed.

Lemma google_item_dict_ok (e : value) :
  google_entry e → GoogleCustomSearchClient.item_dict e = ok (google_item e).
Proof.
  intros [Htop Himg]. unfold google_fields, google_image_fields in *.
  repeat match goal with H : Forall _ (_ :: _) |- _ => apply Forall_cons in H as [? H] end.
  unfold GoogleCustomSearchClient.item_dict.
  rewrite !subscript_has_field by done. simpl.
  rewrite !subscript_has_field by done. done.
Qed.

Ltac lookup_or_raise k :=
  match goal with
  | |- context [?d !! k] =>
      let Hk := fresh "Hk" in
      destruct (d !! k) eqn:Hk; simpl;
      [|try (right; eexists; split; [done|]); eexists; try split; try done;
        set_solver]
  end.

Ltac no_lack H :=
  unfold google_lacks, google_fields, google_image_fields in H;
  rewrite ?Exists_cons, ?Exists_nil in H;
  unfold lacks_field, field in H; simpl in H;
  repeat match goal with
    | Hk : _ !! "image" = Some _ |- _ => rewrite Hk in H; simpl in H
    end;
  naive_solver.

Lemma google_item_dict_lacks (e : value) :
  google_lacks e → ∃ err, GoogleCustomSearchClient.item_dict e = raise err.
Proof.
  intros Hl.
  assert (is_dict e) as [d ->].
  { destruct Hl as [Hl|Hl]; apply Exists_exists in Hl as (k & _ & Hk).
    - by eapply lacks_is_dict.
    - eapply field_is_dict, lacks_is_dict, Hk. }
  unfold GoogleCustomSearchClient.item_dict. rewrite !subscript_dict.
  lookup_or_raise "mime". lookup_or_raise "image".
  destruct v0 as [| | | | | |img]; simpl; eauto.
  lookup_or_raise "width". lookup_or_raise "height".
  lookup_or_raise "byteSize". lookup_or_raise "link".
  lookup_or_raise "contextLink".
  exfalso. no_lack Hl.
Qed.

Lemma google_item_dict_shaped (e : value) :
  google_shaped e →
  (∃ x, GoogleCustomSearchClient.item_dict e = ok x) ∨
  (∃ err, GoogleCustomSearchClient.item_dict e = raise err ∧
          missing_key (google_fields ++ google_image_fields) err).
Proof.
  intros [[d ->] Himg].
  unfold GoogleCustomSearchClient.item_dict, missing_key. rewrite !subscript_dict.
  lookup_or_raise "mime". lookup_or_raise "image".
  assert (has_field (PDict d) "image") as Hhas by (exists d; eauto).
  apply Himg in Hhas as [img Hfield]. clear Himg.
  unfold field in Hfield. simpl in Hfield. rewrite Hk0 in Hfield.
  cbv [ok] in Hfield. subst.
  rewrite !subscript_dict.
  lookup_or_raise "width". lookup_or_raise "height".
  lookup_or_raise "byteSize". lookup_or_raise "link".
  lookup_or_raise "contextLink".
  eauto.
Qed.

Lemma bing_item_dict_ok (e : value) :
  bing_entry e → BingSearchClient.item_dict e = ok (bing_item e).
Proof.
  intros Hall. unfold bing_entry, bing_fields in Hall.
  repeat match goal with H : Forall _ (_ :: _) |- _ => apply Forall_cons in H as [? H] end.
  unfold BingSearchClient.item_dict.
  rewrite !subscript_has_field by done. done.
Qed.

Lemma bing_item_dict_dict (e : value) :
  is_dict e →
  (bing_entry e ∧ ∃ x, BingSearchClient.item_dict e = ok x) ∨
  (∃ err, BingSearchClient.item_dict e = raise err ∧ missing_key bing_fields err).
Proof.
  intros [d ->].
  destruct (decide (Forall (λ k, is_Some (d !! k)) bing_fields)) as [Hall|Hsome].
  - left. assert (bing_entry (PDict d)) as He.
    { eapply Forall_impl; [exact Hall|]. intros k Hk. exists d. eauto. }
    split; [done|]. rewrite bing_item_dict_ok by done. eauto.
  - right. unfold BingSearchClient.item_dict, missing_key, bing_fields in *.
    rewrite !subscript_dict.
    lookup_or_raise "encodingFormat". lookup_or_raise "width".
    lookup_or_raise "height". lookup_or_raise "contentSize".
    lookup_or_raise "contentUrl". lookup_or_raise "hostPageDisplayUrl".
    exfalso. apply Hsome. repeat constructor; eauto.
Qed.

Lemma bing_item_dict_lacks (e : value) :
  bing_lacks e →
  ∃ err, BingSearchClient.item_dict e = raise err ∧ missing_key bing_fields err.
Proof.
  intros Hl.
  assert (is_dict e) as He.
  { apply Exists_exists in Hl as (k & _ & Hk). by eapply lacks_is_dict. }
  destruct (bing_item_dict_dict e He) as [[Hall _]|Herr]; [|done].
  exfalso. destruct He as [d ->].
  apply Exists_exists in Hl as (k & Hin & d' & [= <-] & Hnone).
  eapply Forall_forall in Hall as (d' & [= <-] & [x Hx]); [|exact Hin].
  congruence.
Qed.

(** The fields of the normalized items. *)
Lemma google_item_lookup (e : value) :
  ∃ d, google_item e = PDict d ∧
    d !! "type" = Some (field e "mime") ∧
    d !! "width" = Some (field (field e "image") "width") ∧
    d !! "height" = Some (field (field e "image") "height") ∧
    d !! "size" = Some (field (field e "image") "byteSize") ∧
    d !! "url" = Some (field e "link") ∧
    d !! "hostPage" = Some (field (field e "image") "contextLink") ∧
    dom d = {["type"; "width"; "height"; "size"; "url"; "hostPage"]}.
Proof.
  eexists. split; [reflexivity|]. repeat split; done.
Qed.

Lemma bing_item_lookup (e : value) :
  ∃ d, bing_item e = PDict d ∧
    d !! "type" = Some (field e "encodingFormat") ∧
    d !! "width" = Some (field e "width") ∧
    d !! "height" = Some (field e "height") ∧
    d !! "size" = Some (field e "contentSize") ∧
    d !! "url" = Some (field e "contentUrl") ∧
    d !! "hostPage" = Some (field e "hostPageDisplayUrl") ∧
    dom d = {["type"; "width"; "height"; "size"; "url"; "hostPage"]}.
Proof.
  eexists. split; [reflexivity|]. repeat split; done.
Qed.

(** C3. For a body whose [items] is an array of entries that each carry
    [mime], [link] and an [image] object with [width], [height], [byteSize]
    and [contextLink], the Custom Search [_parse_response] returns a list of
    the same length whose i-th element is the item built from the i-th
    entry: type = mime, width = image.width, height = image.height,
    size = image.byteSize, url = link, hostPage = image.contextLink. *)
Theorem google_parse_response (self : SearchClient) (body : gmap string value)
    (entries : list value) :
  cls self = GoogleCustomSearch →
  response self = PDict body →
  body !! "items" = Some (PList entries) →
  Forall google_entry entries →
  ∃ items : list value,
    _parse_response self = ok (PList items) ∧
    length items = length entries ∧
    ∀ (i : nat) (e : value), entries !! i = Some e → items !! i = Some (google_item e).
Proof.
  intros Hcls Hresp Hitems Hall.
  exists (google_item <$> entries). split; [|split].
  - unfold _parse_response, GoogleCustomSearchClient._parse_response.
    rewrite Hcls, Hresp, subscript_dict, Hitems. simpl.
    rewrite (for_append_ok _ google_item); [done|].
    eapply Forall_impl; [exact Hall|]. apply google_item_dict_ok.
  - apply length_fmap.
  - intros i e He. rewrite list_lookup_fmap, He. done.
Qed.

(** C4. For a body with a [value] array of fully populated entries and
    the fields [nextOffset] and [totalEstimatedMatches], the Web Image
    Search [_parse_response] returns the tuple (items, nextOffset,
    totalEstimatedMatches), the i-th item being built from the i-th entry:
    type = encodingFormat, width = width, height = height,
    size = contentSize, url = contentUrl, hostPage = hostPageDisplayUrl. *)
Theorem bing_parse_response (self : SearchClient) (body : gmap string value)
    (entries : list value) (nextOffset totalEstimatedMatches : value) :
  cls self = BingSearch →
  response self = PDict body →
  body !! "value" = Some (PList entries) →
  body !! "nextOffset" = Some nextOffset →
  body !! "totalEstimatedMatches" = Some totalEstimatedMatches →
  Forall bing_entry entries →
  ∃ items : list value,
    _parse_response self
      = ok (PTuple [PList items; nextOffset; totalEstimatedMatches]) ∧
    length items = length entries ∧
    ∀ (i : nat) (e : value), entries !! i = Some e → items !! i = Some (bing_item e).
Proof.
  intros Hcls Hresp Hvalue Hnext Htotal Hall.
  exists (bing_item <$> entries). split; [|split].
  - unfold _parse_response, BingSearchClient._parse_response.
    rewrite Hcls, Hresp, !subscript_dict, Hvalue, Hnext, Htotal. simpl.
    rewrite (for_append_ok _ bing_item); [done|].
    eapply Forall_impl; [exact Hall|]. apply bing_item_dict_ok.
  - apply length_fmap.
  - intros i e He. rewrite list_lookup_fmap, He. done.
Qed.

(** C8. When some entry of the response lacks a field that
    [_parse_response] reads, the method raises and returns no items; when
    the entries are objects (and [image], where present, is an object) the
    exception is the [KeyError] of a missing expected field.  No default
    value is ever put in place of the missing field. *)
Theorem parse_response_missing_field (self : SearchClient)
    (body : gmap string value) (entries : list value) :
  response self = PDict body →
  body !! entries_key (cls self) = Some (PList entries) →
  Exists (lacks_expected (cls self)) entries →
  (∃ err, _parse_response self = raise err) ∧
  (Forall (object_shaped (cls self)) entries →
   ∃ err, _parse_response self = raise err ∧
          missing_key (expected_fields (cls self)) err).
Proof.
  intros Hresp Hkey Hlacks.
  unfold _parse_response, GoogleCustomSearchClient._parse_response,
    BingSearchClient._parse_response.
  destruct (cls self); simpl in Hkey, Hlacks |- *;
    rewrite Hresp, !subscript_dict, Hkey; simpl.
  - split.
    + destruct (for_append_fail GoogleCustomSearchClient.item_dict entries [])
        as [err Herr].
      { eapply Exists_impl; [exact Hlacks|]. apply google_item_dict_lacks. }
      exists err. by rewrite Herr.
    + intros Hshaped.
      destruct (for_append_raise GoogleCustomSearchClient.item_dict
                  (missing_key (google_fields ++ google_image_fields)) entries [])
        as (err & Herr & Hmiss).
      { eapply Forall_impl; [exact Hshaped|]. apply google_item_dict_shaped. }
      { eapply Exists_impl; [exact Hlacks|]. apply google_item_dict_lacks. }
      exists err. by rewrite Herr.
  - assert (Exists (λ e, ∃ err, BingSearchClient.item_dict e = raise err) entries)
      as Hfails.
    { eapply Exists_impl; [exact Hlacks|]. intros e He.
      apply bing_item_dict_lacks in He as (err & Herr & _). eauto. }
    split.
    + destruct (for_append_fail BingSearchClient.item_dict entries [] Hfails)
        as [err Herr].
      exists err. by rewrite Herr.
    + intros Hshaped.
      destruct (for_append_raise BingSearchClient.item_dict
                  (missing_key bing_fields) entries [])
        as (err & Herr & Hmiss); [|done|].
      { eapply Forall_impl; [exact Hshaped|]. intros e He.
        destruct (bing_item_dict_dict e He) as [[_ Hok]|Herr]; eauto. }
      exists err. by rewrite Herr.
Qed.

(** The two bodies given with the description of the API. *)
Example google_parse_example :
  _parse_response (set_response example_google (PDict example_google_body))
    = ok (PList [PDict (dict_display
                         [("type", PStr "image/jpeg"); ("width", PInt 100);
                          ("height", PInt 50); ("size", PInt 2048);
                          ("url", PStr "http://img");
                          ("hostPage", PStr "http://host")])]).
Proof. vm_compute. reflexivity. Qed.

Example bing_parse_example :
  _parse_response (set_response example_bing (PDict example_bing_body))
    = ok (PTuple [PList [PDict (dict_display
                                  [("type", PStr "png"); ("width", PInt 10);
                                   ("height", PInt 20); ("size", PInt 500);
                                   ("url", PStr "u"); ("hostPage", PStr "h")])];
                  PInt 5; PInt 999]).
Proof. vm_compute. reflexivity. Qed.

Example google_parse_no_image :
  _parse_response
    (set_response example_google
       (PDict (dict_display [("items", PList [example_no_image])])))
    = raise (KeyError "image").
Proof. vm_compute. reflexivity. Qed.

(** ** The [search] method *)

Ltac unfold_search :=
  unfold search, requests_get_json, assign_params, assign_response, get_self,
    lift, throw;
  cbv [mbind method_bind mret method_ret].

Section SearchProperties.

Variable http_json : list request → request → result value.

Lemma search_falsy_query (query : value) (kwargs : gmap string value) (st : state) :
  truthy query = false →
  search http_json query kwargs st
    = (raise (ValueError (Msg "Expected a query" [])), st).
Proof. intros Hq. unfold_search. rewrite Hq. done. Qed.

Lemma search_check_raises (query : value) (kwargs : gmap string value)
    (self : SearchClient) (net : list request) (err : exn) :
  truthy query = true →
  _check_value self kwargs = raise err →
  search http_json query kwargs (self, net) = (raise err, (self, net)).
Proof. intros Hq Hcheck. unfold_search. rewrite Hq. simpl. rewrite Hcheck. done. Qed.

(** A call that passes validation: the parameters are merged into
    [self.params], one request is issued with them, and its answer is
    stored and parsed. *)
Lemma search_validated (query : value) (kwargs : gmap string value)
    (self : SearchClient) (net : list request) :
  truthy query = true →
  _check_value self kwargs = ok () →
  search http_json query kwargs (self, net)
    = let self1 := set_params self (merged self query kwargs) in
      let req := request_of self query kwargs in
      match http_json net req with
      | inl err => (raise err, (self1, net ++ [req])%list)
      | inr body =>
          (_parse_response (set_response self1 body),
           (set_response self1 body, net ++ [req])%list)
      end.
Proof.
  intros Hq Hcheck. unfold_search. rewrite Hq. simpl. rewrite Hcheck.
  rewrite (check_value_ok_update _ _ _ _ Hcheck). simpl.
  unfold request_of, merged. destruct (http_json _ _); done.
Qed.

(** [search] assigns [params] and [response] only. *)
Lemma search_configured (query : value) (kwargs : gmap string value)
    (self self' : SearchClient) (net net' : list request) (r : result value) :
  search http_json query kwargs (self, net) = (r, (self', net')) →
  configured_as self self'.
Proof.
  intros Hsearch.
  destruct (truthy query) eqn:Hq.
  - destruct (_check_value self kwargs) as [err|[]] eqn:Hcheck.
    + rewrite (search_check_raises _ _ _ net err Hq Hcheck) in Hsearch.
      by injection Hsearch as _ <- _.
    + rewrite (search_validated _ _ _ _ Hq Hcheck) in Hsearch.
      simpl in Hsearch.
      destruct (http_json _ _); by injection Hsearch as _ <- _.
  - rewrite (search_falsy_query _ _ _ Hq) in Hsearch.
    by injection Hsearch as _ <- _.
Qed.

(** Instances stay instances. *)
Lemma search_google_instance (query : value) (kwargs : gmap string value)
    (self self' : SearchClient) (net net' : list request) (r : result value) :
  GoogleInstance self →
  search http_json query kwargs (self, net) = (r, (self', net')) →
  GoogleInstance self'.
Proof.
  intros (cse_id & api_key & c0 & Hinit & H0) H1%search_configured.
  exists cse_id, api_key, c0. split; [done|].
  unfold configured_as in *. destruct_and!. repeat split; congruence.
Qed.

Lemma search_bing_instance (query : value) (kwargs : gmap string value)
    (self self' : SearchClient) (net net' : list request) (r : result value) :
  BingInstance self →
  search http_json query kwargs (self, net) = (r, (self', net')) →
  BingInstance self'.
Proof.
  intros (api_key & c0 & Hinit & H0) H1%search_configured.
  exists api_key, c0. split; [done|].
  unfold configured_as in *. destruct_and!. repeat split; congruence.
Qed.

(** A key given to one validated call and omitted from the next is still
    sent with the next request, whatever the transport answered: the
    dictionary updated in place is the one held by the instance. *)
Lemma search_keeps_earlier_key (q1 q2 : value) (kw1 kw2 : gmap string value)
    (self self1 self2 : SearchClient) (net net1 net2 : list request)
    (r1 r2 : result value) (k : string) (v : value) :
  truthy q1 = true → _check_value self kw1 = ok () → kw1 !! k = Some v →
  search http_json q1 kw1 (self, net) = (r1, (self1, net1)) →
  truthy q2 = true → _check_value self1 kw2 = ok () → kw2 !! k = None →
  search http_json q2 kw2 (self1, net1) = (r2, (self2, net2)) →
  ∃ req, last net2 = Some req ∧ req_params req !! k = Some v.
Proof.
  intros Hq1 Hc1 Hk1 Hs1 Hq2 Hc2 Hk2 Hs2.
  assert (k ≠ "q") as Hkq.
  { intros ->. apply check_value_ok_dom in Hc1.
    assert ("q" ∈ dom kw1) as Hin%Hc1 by (apply elem_of_dom; eauto).
    destruct (cls self); set_solver. }
  assert (params self1 = merged self q1 kw1) as Hp1.
  { rewrite (search_validated _ _ _ _ Hq1 Hc1) in Hs1. simpl in Hs1.
    destruct (http_json _ _); by injection Hs1 as _ <- _. }
  assert (net2 = (net1 ++ [request_of self1 q2 kw2])%list) as ->.
  { rewrite (search_validated _ _ _ _ Hq2 Hc2) in Hs2. simpl in Hs2.
    destruct (http_json _ _); by injection Hs2 as _ _ <-. }
  exists (request_of self1 q2 kw2). split; [apply last_snoc|].
  unfold request_of, merged. simpl. rewrite Hp1. unfold merged.
  rewrite lookup_union_r by done.
  rewrite lookup_insert_ne by done.
  by apply lookup_union_Some_l.
Qed.

(** C7. A call with an empty or absent query (the empty string, [None],
    or any other query that tests false) raises the [ValueError] of the
    guard, and the instance and the list of issued requests are what they
    were: no GET is made. *)
Theorem search_empty_query (query : value) (kwargs : gmap string value)
    (self : SearchClient) (net : list request) :
  query = PStr "" ∨ query = PNone ∨ truthy query = false →
  search http_json query kwargs (self, net)
    = (raise (ValueError (Msg "Expected a query" [])), (self, net)).
Proof.
  intros Hq. apply search_falsy_query. by destruct Hq as [->|[->|?]].
Qed.

(** C9. When the query guard or [_check_value] raises, [search] raises
    and leaves the instance (parameters, held response, configuration)
    and the list of issued requests exactly as they were. *)
Theorem search_validation_atomic (query : value) (kwargs : gmap string value)
    (self : SearchClient) (net : list request) :
  truthy query = false ∨ (∃ err, _check_value self kwargs = raise err) →
  ∃ err, search http_json query kwargs (self, net) = (raise err, (self, net)).
Proof.
  intros Hfail. destruct (truthy query) eqn:Hq.
  - destruct Hfail as [|[err Hcheck]]; [done|].
    exists err. by apply search_check_raises.
  - eexists. by apply search_falsy_query.
Qed.

(** C10. On a freshly constructed instance of either class, a call whose
    keyword arguments omit the pagination key ([start], respectively
    [offset]) issues no request that carries that key: the default used by
    [_check_value] is not sent.  A call that passes validation issues
    exactly one request, with the base parameters, [q] and the keyword
    arguments. *)
Theorem fresh_search_omits_default (query : value) (kwargs : gmap string value)
    (self self' : SearchClient) (net' : list request) (r : result value) :
  fresh self →
  kwargs !! pagination_key (cls self) = None →
  search http_json query kwargs (self, []) = (r, (self', net')) →
  Forall (λ req, req_params req !! pagination_key (cls self) = None) net' ∧
  (truthy query = true → _check_value self kwargs = ok () →
   net' = [request_of self query kwargs]).
Proof.
  intros Hfresh%fresh_params Hkw Hsearch.
  destruct (truthy query) eqn:Hq.
  - destruct (_check_value self kwargs) as [err|[]] eqn:Hcheck.
    + rewrite (search_check_raises _ _ _ [] err Hq Hcheck) in Hsearch.
      injection Hsearch as _ _ <-. split; [constructor|done].
    + rewrite (search_validated _ _ _ _ Hq Hcheck) in Hsearch.
      assert (net' = [request_of self query kwargs]) as ->.
      { simpl in Hsearch. destruct (http_json _ _); by injection Hsearch as _ _ <-. }
      split; [|done]. constructor; [|constructor].
      unfold request_of, merged. simpl.
      apply lookup_union_None. split; [done|].
      rewrite lookup_insert_ne; [done|]. by destruct (cls self).
  - rewrite (search_falsy_query _ _ _ Hq) in Hsearch.
    injection Hsearch as _ _ <-. split; [constructor|done].
Qed.

End SearchProperties.

(** ** Reusing an instance *)

(** C5. The request of a call is not always made of the base parameters,
    [q] and the keyword arguments of that call.
    [search("cats", start=11, num=5)] followed by [search("dogs", num=3)] on
    one instance: both calls return, and the second request still carries
    [start=11] of the first call, because [self.params] is updated in place
    and never reset. *)
Theorem search_reuse_keeps_start :
  ∃ (c1 c2 : SearchClient) (req1 req2 : request) (r1 r2 : value),
    search empty_answer (PStr "cats")
      (dict_display [("start", PInt 11); ("num", PInt 5)]) (example_google, [])
      = (ok r1, (c1, [req1])) ∧
    search empty_answer (PStr "dogs")
      (dict_display [("num", PInt 3)]) (c1, [req1])
      = (ok r2, (c2, [req1; req2])) ∧
    req_params req2
      = dict_display [("key", PStr "secret"); ("cx", PStr "cse");
                      ("searchType", PStr "image"); ("q", PStr "dogs");
                      ("start", PInt 11); ("num", PInt 3)] ∧
    req_params req2
      ≠ dict_display [("num", PInt 3)]
          ∪ <["q" := PStr "dogs"]> (params example_google).
Proof.
  do 6 eexists.
  split; [vm_compute; reflexivity|].
  split; [vm_compute; reflexivity|].
  split; [vm_compute; reflexivity|].
  intros Heq. apply (f_equal (λ d : gmap string value, d !! "start")) in Heq.
  vm_compute in Heq. discriminate.
Qed.

(** ** The statements at concrete inputs *)

Lemma google_check_value_witness :
  GoogleInstance example_google ∧
  dom (dict_display [("num", PInt 5)]) ⊆ ({["start"; "num"]} : gset string) ∧
  _check_value example_google (dict_display [("num", PInt 5)]) = ok ().
Proof.
  assert (GoogleInstance example_google) as Hinst
    by exact example_google_instance.
  assert (dom (dict_display [("num", PInt 5)]) ⊆ ({["start"; "num"]} : gset string))
    as Hdom by (unfold dict_display; simpl; set_solver).
  split; [exact Hinst|]. split; [exact Hdom|].
  destruct (google_check_value example_google _ Hinst Hdom) as (_ & _ & _ & Hok).
  apply (Hok 5); [reflexivity|lia|left; reflexivity].
Defined.

Lemma bing_check_value_witness :
  BingInstance example_bing ∧
  dom (dict_display [("offset", PInt 35); ("count", PInt 150)])
    ⊆ ({["offset"; "count"]} : gset string) ∧
  _check_value example_bing (dict_display [("offset", PInt 35); ("count", PInt 150)])
    = ok ().
Proof.
  assert (BingInstance example_bing) as Hinst by exact example_bing_instance.
  assert (dom (dict_display [("offset", PInt 35); ("count", PInt 150)])
            ⊆ ({["offset"; "count"]} : gset string))
    as Hdom by (unfold dict_display; simpl; set_solver).
  split; [exact Hinst|]. split; [exact Hdom|].
  destruct (bing_check_value example_bing _ Hinst Hdom) as (_ & _ & _ & Hok).
  apply (Hok 150); [reflexivity|lia|].
  right. exists 35. split; [reflexivity|lia].
Defined.

Lemma check_value_rejects_unknown_keys_witness :
  (∃ k, k ∈ dom (dict_display [("num", PInt 5); ("page", PInt 2)]) ∧
        k ∉ recognized (cls example_google)) ∧
  _check_value example_google (dict_display [("num", PInt 5); ("page", PInt 2)])
    = raise (TypeError (Msg "%r are invalid keyword arguments."
                            [FKeys {["page"]}])).
Proof.
  assert (∃ k, k ∈ dom (dict_display [("num", PInt 5); ("page", PInt 2)]) ∧
               k ∉ recognized (cls example_google)) as Hk.
  { exists "page". unfold dict_display. simpl. set_solver. }
  split; [exact Hk|].
  rewrite (check_value_rejects_unknown_keys example_google _ Hk).
  vm_compute. reflexivity.
Defined.

Lemma example_google_entry_ok : google_entry example_google_entry.
Proof.
  split; repeat constructor; eexists; (split; [reflexivity|]); eexists;
    vm_compute; reflexivity.
Qed.

Lemma example_bing_entry_ok : bing_entry example_bing_entry.
Proof.
  repeat constructor; eexists; (split; [reflexivity|]); eexists;
    vm_compute; reflexivity.
Qed.

Lemma google_parse_response_witness :
  ∃ items : list value,
    _parse_response (set_response example_google (PDict example_google_body))
      = ok (PList items) ∧
    length items = 1%nat ∧
    items !! 0%nat = Some (google_item example_google_entry).
Proof.
  destruct (google_parse_response
              (set_response example_google (PDict example_google_body))
              example_google_body [example_google_entry])
    as (items & Hparse & Hlen & Hnth).
  - reflexivity.
  - reflexivity.
  - vm_compute. reflexivity.
  - constructor; [exact example_google_entry_ok|constructor].
  - exists items. split; [exact Hparse|]. split; [exact Hlen|].
    apply Hnth. reflexivity.
Defined.

Lemma bing_parse_response_witness :
  ∃ items : list value,
    _parse_response (set_response example_bing (PDict example_bing_body))
      = ok (PTuple [PList items; PInt 5; PInt 999]) ∧
    length items = 1%nat ∧
    items !! 0%nat = Some (bing_item example_bing_entry).
Proof.
  destruct (bing_parse_response
              (set_response example_bing (PDict example_bing_body))
              example_bing_body [example_bing_entry] (PInt 5) (PInt 999))
    as (items & Hparse & Hlen & Hnth).
  - reflexivity.
  - reflexivity.
  - vm_compute. reflexivity.
  - vm_compute. reflexivity.
  - vm_compute. reflexivity.
  - constructor; [exact example_bing_entry_ok|constructor].
  - exists items. split; [exact Hparse|]. split; [exact Hlen|].
    apply Hnth. reflexivity.
Defined.

Lemma example_no_image_lacks : google_lacks example_no_image.
Proof.
  left. apply Exists_cons_tl, Exists_cons_hd.
  eexists. split; [reflexivity|]. vm_compute. reflexivity.
Qed.

Lemma example_no_image_shaped : google_shaped example_no_image.
Proof.
  split; [by eexists|]. intros (d & [= <-] & [x Hx]). vm_compute in Hx. done.
Qed.

Lemma parse_response_missing_field_witness :
  ∃ err,
    _parse_response
      (set_response example_google
         (PDict (dict_display
                   [("items", PList [example_google_entry; example_no_image])])))
      = raise err ∧
    missing_key (expected_fields GoogleCustomSearch) err.
Proof.
  destruct (parse_response_missing_field
              (set_response example_google
                 (PDict (dict_display
                           [("items", PList [example_google_entry; example_no_image])])))
              (dict_display
                 [("items", PList [example_google_entry; example_no_image])])
              [example_google_entry; example_no_image])
    as [_ Hkey].
  - reflexivity.
  - vm_compute. reflexivity.
  - apply Exists_cons_tl, Exists_cons_hd. exact example_no_image_lacks.
  - apply Hkey. constructor; [|constructor; [|constructor]].
    + split; [by eexists|]. intros _. eexists. vm_compute. reflexivity.
    + exact example_no_image_shaped.
Defined.

Lemma search_empty_query_witness :
  search unreachable (PStr "") (dict_display [("num", PInt 5)]) (example_google, [])
    = (raise (ValueError (Msg "Expected a query" [])), (example_google, [])).
Proof. apply search_empty_query. left. reflexivity. Defined.

Lemma search_validation_atomic_witness :
  ∃ err,
    search unreachable (PStr "cats") (dict_display [("num", PInt 11)])
      (example_google, [])
    = (raise err, (example_google, [])).
Proof.
  apply search_validation_atomic. right.
  eexists. vm_compute. reflexivity.
Defined.

Lemma fresh_search_omits_default_witness :
  ∃ (r : result value) (self' : SearchClient) (net' : list request),
    search empty_answer (PStr "cats") (dict_display [("num", PInt 5)])
      (example_google, []) = (r, (self', net')) ∧
    Forall (λ req, req_params req !! "start" = None) net' ∧
    net' = [request_of example_google (PStr "cats") (dict_display [("num", PInt 5)])].
Proof.
  do 3 eexists. split; [vm_compute; reflexivity|].
  destruct (fresh_search_omits_default empty_answer (PStr "cats")
              (dict_display [("num", PInt 5)]) example_google _ _ _
              (or_introl (ex_intro _ (PStr "cse")
                            (ex_intro _ (PStr "secret") eq_refl)))
              eq_refl eq_refl) as [Hall Hone].
  split; [exact Hall|]. apply Hone; vm_compute; reflexivity.
Defined.

(** * Further properties of the code *)

(** ** What [_check_value] accepts *)







(** X2. With recognized keys only, a required argument that is absent or
    given as [None] makes [_check_value] raise the "missing number" error,
    whatever the pagination argument is: the test comes before any
    comparison. *)
Theorem check_value_missing_count (self : SearchClient) (kwargs : gmap string value) :
  dom kwargs ⊆ recognized (cls self) →
  kwargs !! count_key (cls self) = None ∨
  kwargs !! count_key (cls self) = Some PNone →
  _check_value self kwargs
    = raise (ValueError (Msg "Missing number of results to return." [])).
Proof.
  intros Hdom Hcount. unfold _check_value.
  destruct (cls self); cbn [recognized count_key] in *; known_keys Hdom;
    by destruct Hcount as [->| ->].
Qed.


(** ** When [_parse_response] returns *)

Lemma for_append_ok_inv (body : value → result value) (seq items out : list value) :
  for_append body seq items = ok out →
  Forall (λ e, ∃ x, body e = ok x) seq.
Proof.
  revert items. induction seq as [|e seq IH]; intros items Hok; [constructor|].
  simpl in Hok. destruct (body e) as [err|x] eqn:He; [done|].
  constructor; [eauto|]. by eapply IH.
Qed.

Lemma subscript_ok_inv (v x : value) (k : string) :
  subscript v k = ok x → has_field v k ∧ field v k = x.
Proof.
  intros Hsub. unfold field. rewrite Hsub. split; [|done].
  destruct v as [| | | | | |d]; try done.
  exists d. split; [done|]. simpl in Hsub. destruct (d !! k); [eauto|done].
Qed.

Ltac subscript_inv v k :=
  let H := fresh "Hsub" in
  let x := fresh "x" in
  destruct (subscript v k) as [?|x] eqn:H; simpl; [done|];
  apply subscript_ok_inv in H as [? <-].

Lemma google_item_dict_ok_inv (e x : value) :
  GoogleCustomSearchClient.item_dict e = ok x → google_entry e.
Proof.
  unfold GoogleCustomSearchClient.item_dict.
  subscript_inv e "mime". subscript_inv e "image".
  subscript_inv (field e "image") "width".
  subscript_inv (field e "image") "height".
  subscript_inv (field e "image") "byteSize".
  subscript_inv e "link".
  subscript_inv (field e "image") "contextLink".
  intros _. split; repeat constructor; done.
Qed.

Lemma bing_item_dict_ok_inv (e x : value) :
  BingSearchClient.item_dict e = ok x → bing_entry e.
Proof.
  unfold BingSearchClient.item_dict.
  subscript_inv e "encodingFormat". subscript_inv e "width".
  subscript_inv e "height". subscript_inv e "contentSize".
  subscript_inv e "contentUrl". subscript_inv e "hostPageDisplayUrl".
  intros _. repeat constructor; done.
Qed.

(** X4. Custom Search, [items] an array: [_parse_response] returns if and
    only if every entry carries all the fields it reads ([mime], [link], and
    an [image] object with [width], [height], [byteSize], [contextLink]);
    one entry short of a field, or not an object, makes the whole call
    raise. *)
Theorem google_parse_returns_iff (self : SearchClient) (body : gmap string value)
    (entries : list value) :
  cls self = GoogleCustomSearch →
  response self = PDict body →
  body !! "items" = Some (PList entries) →
  (∃ r, _parse_response self = ok r) ↔ Forall google_entry entries.
Proof.
  intros Hcls Hresp Hitems. split.
  - intros [r Hok]. revert Hok.
    unfold _parse_response, GoogleCustomSearchClient._parse_response.
    rewrite Hcls, Hresp, subscript_dict, Hitems. simpl.
    destruct (for_append _ entries []) as [err|items] eqn:Hloop; [done|].
    intros _. apply for_append_ok_inv in Hloop.
    eapply Forall_impl; [exact Hloop|]. intros e [x Hx].
    by eapply google_item_dict_ok_inv.
  - intros Hall.
    unfold _parse_response, GoogleCustomSearchClient._parse_response.
    rewrite Hcls, Hresp, subscript_dict, Hitems. simpl.
    rewrite (for_append_ok _ google_item); [by eexists|].
    eapply Forall_impl; [exact Hall|]. apply google_item_dict_ok.
Qed.

(** X5. Web Image Search, [value] an array: [_parse_response] returns if
    and only if every entry carries the six fields it reads and the body has
    [nextOffset] and [totalEstimatedMatches]. *)
Theorem bing_parse_returns_iff (self : SearchClient) (body : gmap string value)
    (entries : list value) :
  cls self = BingSearch →
  response self = PDict body →
  body !! "value" = Some (PList entries) →
  (∃ r, _parse_response self = ok r) ↔
  Forall bing_entry entries ∧ is_Some (body !! "nextOffset") ∧
  is_Some (body !! "totalEstimatedMatches").
Proof.
  intros Hcls Hresp Hvalue.
  unfold _parse_response, BingSearchClient._parse_response.
  rewrite Hcls, Hresp, !subscript_dict, Hvalue. simpl. split.
  - intros [r Hok]. revert Hok.
    destruct (for_append _ entries []) as [err|items] eqn:Hloop; [done|]. simpl.
    destruct (body !! "nextOffset") as [next|]; [|done]. simpl.
    destruct (body !! "totalEstimatedMatches") as [total|]; [|done].
    intros _. split; [|by eauto].
    apply for_append_ok_inv in Hloop.
    eapply Forall_impl; [exact Hloop|]. intros e [x Hx].
    by eapply bing_item_dict_ok_inv.
  - intros (Hall & [next ->] & [total ->]).
    rewrite (for_append_ok _ bing_item); [by eexists|].
    eapply Forall_impl; [exact Hall|]. apply bing_item_dict_ok.
Qed.

(** X6. Web Image Search reads the pagination fields after the entries,
    [nextOffset] first: with well-formed entries, a body without
    [nextOffset] raises [KeyError('nextOffset')], and a body with it but
    without [totalEstimatedMatches] raises
    [KeyError('totalEstimatedMatches')]; the items built are dropped. *)
Theorem bing_parse_missing_pagination (self : SearchClient)
    (body : gmap string value) (entries : list value) :
  cls self = BingSearch →
  response self = PDict body →
  body !! "value" = Some (PList entries) →
  Forall bing_entry entries →
  (body !! "nextOffset" = None →
   _parse_response self = raise (KeyError "nextOffset")) ∧
  (is_Some (body !! "nextOffset") → body !! "totalEstimatedMatches" = None →
   _parse_response self = raise (KeyError "totalEstimatedMatches")).
Proof.
  intros Hcls Hresp Hvalue Hall.
  unfold _parse_response, BingSearchClient._parse_response.
  rewrite Hcls, Hresp, !subscript_dict, Hvalue. simpl.
  rewrite (for_append_ok _ bing_item)
    by (eapply Forall_impl; [exact Hall|]; apply bing_item_dict_ok).
  simpl. split.
  - intros ->. done.
  - intros [next ->] ->. done.
Qed.

(** X7. A body that is an object without the array of entries ([items],
    respectively [value]) makes [_parse_response] raise the [KeyError] of
    that key, whatever else the body holds. *)
Theorem parse_response_without_entries (self : SearchClient)
    (body : gmap string value) :
  response self = PDict body →
  body !! entries_key (cls self) = None →
  _parse_response self = raise (KeyError (entries_key (cls self))).
Proof.
  intros Hresp Hkey.
  unfold _parse_response, GoogleCustomSearchClient._parse_response,
    BingSearchClient._parse_response.
  destruct (cls self); cbn [entries_key] in *;
    by rewrite Hresp, !subscript_dict, Hkey.
Qed.

(** ** What [_parse_response] does not look at *)

Lemma subscript_with_key (k k' : string) (v e : value) :
  k ≠ k' → subscript (with_key k v e) k' = subscript e k'.
Proof.
  intros Hne. destruct e as [| | | | | |d]; try done.
  simpl. by rewrite lookup_insert_ne.
Qed.

Lemma item_dict_with_key (c : client_class) (k : string) (v e : value) :
  k ∉ entry_keys c → item_dict c (with_key k v e) = item_dict c e.
Proof.
  intros Hk.
  destruct c; unfold item_dict, entry_keys, google_fields, bing_fields,
    GoogleCustomSearchClient.item_dict, BingSearchClient.item_dict in *;
    rewrite !subscript_with_key by set_solver; done.
Qed.

Lemma for_append_fmap (body : value → result value) (f : value → value)
    (seq items : list value) :
  (∀ e, body (f e) = body e) →
  for_append body (f <$> seq) items = for_append body seq items.
Proof.
  intros Hf. revert items. induction seq as [|e seq IH]; intros items; [done|].
  simpl. rewrite Hf. destruct (body e); simpl; [done|]. apply IH.
Qed.

(** X8. Keys of an entry that [_parse_response] does not read are ignored:
    giving every object entry one more key, other than those the loop body
    subscripts the entry with, leaves the result unchanged, for both
    classes and for results and exceptions alike. *)
Theorem parse_response_ignores_unread_key (self : SearchClient)
    (body : gmap string value) (entries : list value) (k : string) (v : value) :
  response self = PDict body →
  body !! entries_key (cls self) = Some (PList entries) →
  k ∉ entry_keys (cls self) →
  _parse_response
    (set_response self
       (PDict (<[entries_key (cls self) := PList (with_key k v <$> entries)]> body)))
  = _parse_response self.
Proof.
  intros Hresp Hkey Hk.
  pose proof (item_dict_with_key (cls self) k v) as Hitem.
  unfold _parse_response, GoogleCustomSearchClient._parse_response,
    BingSearchClient._parse_response.
  cbn [cls response set_response]. rewrite Hresp.
  destruct (cls self); cbn [entries_key item_dict] in *;
    rewrite !subscript_dict, lookup_insert_eq, Hkey; simpl;
    rewrite (for_append_fmap _ _ _ _ (λ e, Hitem e Hk)).
  - done.
  - by rewrite !lookup_insert_ne.
Qed.

(** X9. Custom Search, [items] not an array: an empty string or an empty
    object is iterated as no entry at all and the call returns the empty
    list; a non-empty string or object yields strings, which cannot be
    subscripted with a field name, and [None], booleans and integers cannot
    be iterated: the call raises [TypeError]. *)
Theorem google_parse_items_not_array (self : SearchClient)
    (body : gmap string value) (v : value) :
  cls self = GoogleCustomSearch →
  response self = PDict body →
  body !! "items" = Some v →
  (v = PStr "" ∨ v = PDict ∅ → _parse_response self = ok (PList [])) ∧
  ((∃ s, v = PStr s ∧ s ≠ "") ∨ (∃ d, v = PDict d ∧ d ≠ ∅) ∨
   v = PNone ∨ (∃ b, v = PBool b) ∨ (∃ z, v = PInt z) →
   ∃ m, _parse_response self = raise (TypeError m)).
Proof.
  intros Hcls Hresp Hitems.
  unfold _parse_response, GoogleCustomSearchClient._parse_response.
  rewrite Hcls, Hresp, subscript_dict, Hitems. simpl. split.
  - intros [->| ->]; simpl; [done|]. by rewrite map_to_list_empty.
  - intros [(s & -> & Hs)|[(d & -> & Hd)|[->|[[b ->]|[z ->]]]]]; simpl; eauto.
    + destruct s as [|c s]; [done|]. simpl. eauto.
    + destruct (map_to_list d) as [|[k x] l] eqn:Hl.
      * by apply map_to_list_empty_iff in Hl.
      * simpl. eauto.
Qed.

(** ** A validated call, and a call that returns *)

Section SearchEffects.

Variable http_json : list request → request → result value.

(** X10. Once the query and the keyword arguments have passed, the effects
    of [search] stay whatever happens next: the parameters are merged into
    the instance and one request is issued; when the transport raises, that
    exception is the outcome and the held response is the old one; when it
    answers, the body is held and the outcome is that of
    [_parse_response], a result or an exception. *)
Theorem search_effects_after_validation (query : value)
    (kwargs : gmap string value) (self self' : SearchClient)
    (net net' : list request) (r : result value) :
  truthy query = true →
  _check_value self kwargs = ok () →
  search http_json query kwargs (self, net) = (r, (self', net')) →
  params self' = merged self query kwargs ∧
  net' = (net ++ [request_of self query kwargs])%list ∧
  match http_json net (request_of self query kwargs) with
  | inl err => r = raise err ∧ response self' = response self
  | inr body => response self' = body ∧ r = _parse_response self'
  end.
Proof.
  intros Hq Hcheck Hsearch.
  rewrite (search_validated _ _ _ _ _ Hq Hcheck) in Hsearch. simpl in Hsearch.
  destruct (http_json net _) as [err|body];
    injection Hsearch as <- <- <-; done.
Qed.




(** ** Invariants of an instance over any number of calls *)

(** A property of the instance kept by the two assignments of [search],
    and a property of the request of every validated call, hold along any
    sequence of calls; the requests issued only grow. *)
Lemma calls_invariant (I : SearchClient → Prop) (R : request → Prop) :
  (∀ self query kwargs, I self → truthy query = true →
     _check_value self kwargs = ok () →
     I (set_params self (merged self query kwargs)) ∧
     R (request_of self query kwargs)) →
  (∀ self body, I self → I (set_response self body)) →
  ∀ st st', calls http_json st st' → I st.1 →
    I st'.1 ∧ ∃ new, st'.2 = (st.2 ++ new)%list ∧ Forall R new.
Proof.
  intros Hparams Hresp st st' Hcalls.
  induction Hcalls as [st|st [self net] [self' net'] query kwargs r _ IH Hsearch];
    intros Hinit.
  - split; [done|]. exists []. by rewrite app_nil_r.
  - destruct (IH Hinit) as (HI & new & Hnet & Hnew). simpl in HI, Hnet |- *.
    destruct (truthy query) eqn:Hq;
      [|rewrite (search_falsy_query _ _ _ _ Hq) in Hsearch;
        injection Hsearch as _ <- <-; eauto].
    destruct (_check_value self kwargs) as [err|[]] eqn:Hcheck;
      [rewrite (search_check_raises _ _ _ _ net err Hq Hcheck) in Hsearch;
       injection Hsearch as _ <- <-; eauto|].
    destruct (Hparams self query kwargs HI Hq Hcheck) as [HI' HR].
    rewrite (search_validated _ _ _ _ _ Hq Hcheck) in Hsearch. simpl in Hsearch.
    assert (I self' ∧ net' = (net ++ [request_of self query kwargs])%list)
      as [HI'' ->].
    { destruct (http_json net _); injection Hsearch as _ <- <-; auto. }
    split; [done|]. exists (new ++ [request_of self query kwargs])%list.
    split; [by rewrite Hnet, app_assoc|].
    apply Forall_app. auto.
Qed.

(** X13. Over any number of calls on an instance, with any arguments and
    any answers, the class, the headers, the endpoint and the two bounds of
    the instance stay what they were, the requests already issued stay, and
    every request added goes to that endpoint with those headers. *)
Theorem calls_keep_configuration (st st' : state) :
  calls http_json st st' →
  configured_as st.1 st'.1 ∧
  ∃ new, st'.2 = (st.2 ++ new)%list ∧
    Forall (λ req, url req = endpoint st.1 ∧ req_headers req = headers st.1) new.
Proof.
  intros Hcalls.
  apply (calls_invariant (configured_as st.1)
           (λ req, url req = endpoint st.1 ∧ req_headers req = headers st.1));
    [| |done|apply configured_as_refl].
  - intros self query kwargs (? & Hh & He & ? & ?) _ _. simpl.
    rewrite Hh, He. by repeat split.
  - intros self body H. exact H.
Qed.

(** X14. [search] writes the key [q] and recognized keys only: over any
    number of calls, every other key of [params] keeps the value (or the
    absence) it had at the start, in the instance and in every request
    issued. *)
Theorem calls_keep_other_params (st st' : state) (k : string) :
  k ≠ "q" → k ∉ recognized (cls st.1) →
  calls http_json st st' →
  params st'.1 !! k = params st.1 !! k ∧
  ∃ new, st'.2 = (st.2 ++ new)%list ∧
    Forall (λ req, req_params req !! k = params st.1 !! k) new.
Proof.
  intros Hkq Hk Hcalls.
  destruct (calls_invariant
              (λ self, cls self = cls st.1 ∧ params self !! k = params st.1 !! k)
              (λ req, req_params req !! k = params st.1 !! k)) with st st'
    as [[_ Hp] Hnew]; [| |done|done|done].
  - intros self query kwargs [Hcls Hp] _ Hdom%check_value_ok_dom.
    assert (merged self query kwargs !! k = params st.1 !! k) as Hm.
    { unfold merged. rewrite lookup_union_r.
      - by rewrite lookup_insert_ne.
      - apply not_elem_of_dom. intros Hin%Hdom. by rewrite Hcls in Hin. }
    by repeat split.
  - intros self body H. exact H.
Qed.


(** X16. Every request a Custom Search client issues, over any number of
    calls from its construction, goes to the Custom Search endpoint without
    headers and carries the API key, the engine identifier and
    [searchType=image] it was constructed with; both credentials are
    truthy, since the constructor refuses the others. *)
Theorem google_requests_carry_credentials (cse_id api_key : value)
    (c0 : SearchClient) (st' : state) :
  GoogleCustomSearchClient.__init__ cse_id api_key = ok c0 →
  calls http_json (c0, []) st' →
  truthy api_key = true ∧ truthy cse_id = true ∧
  Forall (λ req,
    url req = "https://www.googleapis.com/customsearch/v1" ∧
    req_headers req = ∅ ∧
    req_params req !! "key" = Some api_key ∧
    req_params req !! "cx" = Some cse_id ∧
    req_params req !! "searchType" = Some (PStr "image")) st'.2.
Proof.
  intros Hinit Hcalls.
  unfold GoogleCustomSearchClient.__init__ in Hinit.
  destruct (truthy api_key); [|done]. destruct (truthy cse_id); [|done].
  injection Hinit as <-. split; [done|]. split; [done|].
  set (R := λ req : request,
    url req = "https://www.googleapis.com/customsearch/v1" ∧
    req_headers req = ∅ ∧
    req_params req !! "key" = Some api_key ∧
    req_params req !! "cx" = Some cse_id ∧
    req_params req !! "searchType" = Some (PStr "image")).
  set (I := λ self : SearchClient, cls self = GoogleCustomSearch ∧
    R {| url := endpoint self; req_headers := headers self;
         req_params := params self |}).
  assert (∀ self query kwargs, I self → truthy query = true →
            _check_value self kwargs = ok () →
            I (set_params self (merged self query kwargs)) ∧
            R (request_of self query kwargs)) as Hstep.
  { intros self query kwargs (Hcls & He & Hh & Hk & Hc & Hs) _
      Hdom%check_value_ok_dom.
    rewrite Hcls in Hdom. simpl in *.
    assert (∀ k, k ∉ ({["q"; "start"; "num"]} : gset string) →
                 merged self query kwargs !! k = params self !! k) as Hm.
    { intros k Hk'. unfold merged. rewrite lookup_union_r.
      - rewrite lookup_insert_ne; [done|set_solver].
      - apply not_elem_of_dom. set_solver. }
    unfold I, R. simpl. rewrite !Hm by set_solver. done. }
  destruct (calls_invariant I R Hstep (λ self body H, H) _ _ Hcalls)
    as [_ (new & -> & Hnew)]; [by repeat split|done].
Qed.

(** X17. Every request a Web Image Search client issues, over any number
    of calls from its construction, goes to the image-search endpoint with
    the subscription key as its only header, a truthy one, and carries no
    query parameter other than [q], [offset] and [count]: the key never
    enters the query string. *)
Theorem bing_requests_carry_key (api_key : value) (c0 : SearchClient)
    (st' : state) :
  BingSearchClient.__init__ api_key = ok c0 →
  calls http_json (c0, []) st' →
  truthy api_key = true ∧
  Forall (λ req,
    url req = "https://api.cognitive.microsoft.com/bing/v7.0/images/search" ∧
    req_headers req = {["Ocp-Apim-Subscription-Key" := api_key]} ∧
    dom (req_params req) ⊆ {["q"; "offset"; "count"]}) st'.2.
Proof.
  intros Hinit Hcalls.
  unfold BingSearchClient.__init__ in Hinit.
  destruct (truthy api_key); [|done].
  injection Hinit as <-. split; [done|].
  set (R := λ req : request,
    url req = "https://api.cognitive.microsoft.com/bing/v7.0/images/search" ∧
    req_headers req = {["Ocp-Apim-Subscription-Key" := api_key]} ∧
    dom (req_params req) ⊆ ({["q"; "offset"; "count"]} : gset string)).
  set (I := λ self : SearchClient, cls self = BingSearch ∧
    R {| url := endpoint self; req_headers := headers self;
         req_params := params self |}).
  assert (∀ self query kwargs, I self → truthy query = true →
            _check_value self kwargs = ok () →
            I (set_params self (merged self query kwargs)) ∧
            R (request_of self query kwargs)) as Hstep.
  { intros self query kwargs (Hcls & He & Hh & Hd) _ Hdom%check_value_ok_dom.
    rewrite Hcls in Hdom. simpl in *.
    assert (dom (merged self query kwargs) ⊆ ({["q"; "offset"; "count"]} : gset string))
      as Hm.
    { unfold merged. rewrite dom_union_L, dom_insert_L. set_solver. }
    unfold I, R. simpl. done. }
  destruct (calls_invariant I R Hstep (λ self body H, H) _ _ Hcalls)
    as [_ (new & -> & Hnew)]; [|done].
  split; [done|]. unfold R. simpl. split; [done|]. split; [done|].
  unfold dict_display. simpl. rewrite dom_empty_L. set_solver.
Qed.

End SearchEffects.

(** ** The further statements at concrete inputs *)

Lemma example_calls_google :
  calls empty_answer (example_google, []) example_after_dogs.
Proof.
  apply (calls_search empty_answer _ example_after_cats _
           (PStr "dogs") example_num_3
           (search empty_answer (PStr "dogs") example_num_3 example_after_cats).1).
  - apply (calls_search empty_answer _ (example_google, []) _
             (PStr "cats") example_start_11
             (search empty_answer (PStr "cats") example_start_11
                (example_google, [])).1).
    + apply calls_refl.
    + apply surjective_pairing.
  - apply surjective_pairing.
Qed.

Lemma example_calls_bing :
  calls empty_answer (example_bing, []) example_bing_after.
Proof.
  apply (calls_search empty_answer _ (example_bing, []) _
           (PStr "cats") example_count_10
           (search empty_answer (PStr "cats") example_count_10
              (example_bing, [])).1).
  - apply calls_refl.
  - apply surjective_pairing.
Qed.

Lemma check_value_missing_count_witness :
  _check_value example_google (dict_display [("start", PStr "2"); ("num", PNone)])
    = raise (ValueError (Msg "Missing number of results to return." [])).
Proof.
  apply check_value_missing_count.
  - unfold dict_display. simpl. set_solver.
  - right. reflexivity.
Defined.


Lemma google_parse_returns_iff_witness :
  (∃ r, _parse_response
          (set_response example_google
             (PDict (dict_display
                       [("items", PList [example_google_entry; example_no_image])])))
        = ok r)
  ↔ Forall google_entry [example_google_entry; example_no_image].
Proof.
  apply (google_parse_returns_iff _
           (dict_display
              [("items", PList [example_google_entry; example_no_image])])).
  - reflexivity.
  - reflexivity.
  - vm_compute. reflexivity.
Defined.

Lemma bing_parse_returns_iff_witness :
  ∃ r, _parse_response (set_response example_bing (PDict example_bing_body)) = ok r.
Proof.
  apply (bing_parse_returns_iff _ example_bing_body [example_bing_entry]).
  - reflexivity.
  - reflexivity.
  - vm_compute. reflexivity.
  - split; [|split].
    + constructor; [exact example_bing_entry_ok|constructor].
    + eexists. vm_compute. reflexivity.
    + eexists. vm_compute. reflexivity.
Defined.

Lemma bing_parse_missing_pagination_witness :
  _parse_response
    (set_response example_bing
       (PDict (dict_display [("value", PList [example_bing_entry]);
                             ("totalEstimatedMatches", PInt 999)])))
    = raise (KeyError "nextOffset").
Proof.
  eapply (bing_parse_missing_pagination _
            (dict_display [("value", PList [example_bing_entry]);
                           ("totalEstimatedMatches", PInt 999)])
            [example_bing_entry]).
  - reflexivity.
  - reflexivity.
  - vm_compute. reflexivity.
  - constructor; [exact example_bing_entry_ok|constructor].
  - vm_compute. reflexivity.
Defined.

Lemma parse_response_without_entries_witness :
  _parse_response
    (set_response example_bing (PDict (dict_display [("nextOffset", PInt 5)])))
    = raise (KeyError "value").
Proof.
  apply (parse_response_without_entries
           (set_response example_bing (PDict (dict_display [("nextOffset", PInt 5)])))
           (dict_display [("nextOffset", PInt 5)])).
  - reflexivity.
  - vm_compute. reflexivity.
Defined.

Lemma parse_response_ignores_unread_key_witness :
  _parse_response
    (set_response (set_response example_google (PDict example_google_body))
       (PDict (<["items" := PList (with_key "snippet" (PStr "a cat")
                                     <$> [example_google_entry])]>
                 example_google_body)))
  = _parse_response (set_response example_google (PDict example_google_body)).
Proof.
  apply (parse_response_ignores_unread_key
           (set_response example_google (PDict example_google_body))
           example_google_body [example_google_entry] "snippet" (PStr "a cat")).
  - reflexivity.
  - vm_compute. reflexivity.
  - simpl. unfold google_fields. set_solver.
Defined.

Lemma google_parse_items_not_array_witness :
  _parse_response
    (set_response example_google (PDict (dict_display [("items", PDict ∅)])))
  = ok (PList []).
Proof.
  eapply (google_parse_items_not_array _ (dict_display [("items", PDict ∅)])).
  - reflexivity.
  - reflexivity.
  - vm_compute. reflexivity.
  - right. reflexivity.
Defined.

Lemma search_effects_after_validation_witness :
  ∃ (self' : SearchClient) (net' : list request),
    search unreachable (PStr "cats") example_num_3 (example_google, [])
      = (raise (RequestException (Msg "connection refused" [])), (self', net')) ∧
    params self' = merged example_google (PStr "cats") example_num_3 ∧
    net' = [request_of example_google (PStr "cats") example_num_3] ∧
    response self' = PNone.
Proof.
  set (out := search unreachable (PStr "cats") example_num_3 (example_google, [])).
  assert (out = (raise (RequestException (Msg "connection refused" [])),
                 (out.2.1, out.2.2))) as Hout by (vm_compute; reflexivity).
  exists out.2.1, out.2.2. split; [exact Hout|].
  destruct (search_effects_after_validation unreachable (PStr "cats")
              example_num_3 example_google out.2.1 [] out.2.2 _
              eq_refl eq_refl Hout) as (Hp & Hn & _ & Hr).
  split; [exact Hp|]. split; [exact Hn|exact Hr].
Defined.



Lemma calls_keep_configuration_witness :
  configured_as example_google example_after_dogs.1 ∧
  ∃ new, example_after_dogs.2 = new ∧
    Forall (λ req, url req = endpoint example_google ∧
                   req_headers req = headers example_google) new.
Proof.
  exact (calls_keep_configuration empty_answer (example_google, [])
           example_after_dogs example_calls_google).
Defined.

Lemma calls_keep_other_params_witness :
  params example_after_dogs.1 !! "key" = Some (PStr "secret") ∧
  ∃ new, example_after_dogs.2 = new ∧
    Forall (λ req, req_params req !! "key" = Some (PStr "secret")) new.
Proof.
  apply (calls_keep_other_params empty_answer (example_google, [])
           example_after_dogs "key").
  - discriminate.
  - simpl. set_solver.
  - exact example_calls_google.
Defined.


Lemma google_requests_carry_credentials_witness :
  truthy (PStr "secret") = true ∧ truthy (PStr "cse") = true ∧
  Forall (λ req,
    url req = "https://www.googleapis.com/customsearch/v1" ∧
    req_headers req = ∅ ∧
    req_params req !! "key" = Some (PStr "secret") ∧
    req_params req !! "cx" = Some (PStr "cse") ∧
    req_params req !! "searchType" = Some (PStr "image")) example_after_dogs.2.
Proof.
  exact (google_requests_carry_credentials empty_answer (PStr "cse")
           (PStr "secret") example_google example_after_dogs eq_refl
           example_calls_google).
Defined.

Lemma bing_requests_carry_key_witness :
  truthy (PStr "secret") = true ∧
  Forall (λ req,
    url req = "https://api.cognitive.microsoft.com/bing/v7.0/images/search" ∧
    req_headers req = {["Ocp-Apim-Subscription-Key" := PStr "secret"]} ∧
    dom (req_params req) ⊆ {["q"; "offset"; "count"]}) example_bing_after.2.
Proof.
  exact (bing_requests_carry_key empty_answer (PStr "secret") example_bing
           example_bing_after eq_refl example_calls_bing).
Defined.

(** X18. A keyword given to one validated call and omitted from the next
    validated call on the same instance is sent again, with its old value,
    in the request of that next call, whatever the transport answered in
    between. *)
Theorem search_sends_leftover_key
    (http_json : list request → request → result value) (q1 q2 : value)
    (kw1 kw2 : gmap string value) (self self1 self2 : SearchClient)
    (net net1 net2 : list request) (r1 r2 : result value) (k : string) (v : value) :
  truthy q1 = true → _check_value self kw1 = ok () → kw1 !! k = Some v →
  search http_json q1 kw1 (self, net) = (r1, (self1, net1)) →
  truthy q2 = true → _check_value self1 kw2 = ok () → kw2 !! k = None →
  search http_json q2 kw2 (self1, net1) = (r2, (self2, net2)) →
  ∃ req, last net2 = Some req ∧ req_params req !! k = Some v.
Proof. apply search_keeps_earlier_key. Qed.

Lemma search_sends_leftover_key_witness :
  ∃ req, last example_after_dogs.2 = Some req ∧
         req_params req !! "start" = Some (PInt 11).
Proof.
  apply (search_sends_leftover_key empty_answer (PStr "cats") (PStr "dogs")
           example_start_11 example_num_3 example_google
           example_after_cats.1 example_after_dogs.1 []
           example_after_cats.2 example_after_dogs.2
           (ok (PList [])) (ok (PList [])) "start" (PInt 11)).
  - reflexivity.
  - reflexivity.
  - vm_compute. reflexivity.
  - vm_compute. reflexivity.
  - reflexivity.
  - vm_compute. reflexivity.
  - vm_compute. reflexivity.
  - vm_compute. reflexivity.
Defined.
